(** * express-idempotency: the resource store and the key-state coordinator

    The development has three layers.

    - The data model of [models.ts] as it is used by the adapter and the
      tests: idempotency requests, responses and resources.
    - [InMemoryDataAdapter], embedded from
      [src/defaults/inMemoryDataAdapter.ts]: a JavaScript [Map] from
      idempotency keys to resources, as a [gmap string IdempotencyResource].
      Every method of the class is [async] without an inner [await], so
      its body runs to completion in one turn of the event loop: a method
      is a function from the store to a settled promise and the next store.
    - The coordinator ([IdempotencyService]) and the two header filters,
      modelled from the specification and the test-suite. *)

From Stdlib Require Import ZArith Ascii String List Bool.
From stdpp Require Import base option gmap strings list fin_maps.

Local Open Scope string_scope.

(** ** Data model *)

(** Modelled from the spec: [models.ts] is not among the sources. A header
    value is a string, or an array of strings as the test-suite gives for
    [set-cookie]. *)
Inductive HeaderValue : Type :=
| HSingle (s : string)
| HMulti (l : list string).

(** A header object: header name to value. *)
Abbreviation Headers := (gmap string HeaderValue).

(** Modelled from the spec: [models.ts] is not among the sources.
    [IdempotencyRequest] is [{method, url, headers, body, query}], as in
    section 3 and in the resource literal of the test-suite. *)
Record IdempotencyRequest : Type := {
  method : string;
  url : string;
  headers : Headers;
  body : string;
  query : string
}.

(** Modelled from the spec: [models.ts] is not among the sources.
    [IdempotencyResponse] is [{statusCode, headers, body}]; the status
    code may be [undefined], as the test-suite writes it. *)
Record IdempotencyResponse : Type := {
  statusCode : option Z;
  responseHeaders : Headers;
  responseBody : string
}.

(** Modelled from the spec: [models.ts] is not among the sources.
    [IdempotencyResource], one per idempotency key: the adapter reads its
    [idempotencyKey] only; [response] is absent while the operation is in
    flight. *)
Record IdempotencyResource : Type := {
  idempotencyKey : string;
  request : IdempotencyRequest;
  response : option IdempotencyResponse
}.

(** Errors that reach the embedding application. [AdapterError] carries the
    message of an error thrown by a data adapter. *)
Inductive Error : Type :=
| ConflictError
| MisuseError
| AdapterError (message : string).

(** A settled promise: resolved with a value or rejected with an error. *)
Inductive Settled (A : Type) : Type :=
| Resolved (a : A)
| Rejected (e : Error).
Arguments Resolved {A} a.
Arguments Rejected {A} e.

(** ** The in-memory data adapter *)

Module InMemoryDataAdapter.

(** [private idempotencyResources: Map<string, IdempotencyResource>] *)
Abbreviation t := (gmap string IdempotencyResource).

(** [= new Map()] *)
Definition init : t := ∅.

(** [return this.idempotencyResources.get(idempotencyKey) ?? null;] *)
Definition findByIdempotencyKey (key : string) (m : t)
  : Settled (option IdempotencyResource) * t :=
  (Resolved (m !! key), m).

(** [if (this.idempotencyResources.has(key)) throw new Error('Duplicate');
     this.idempotencyResources.set(key, idempotencyResource);] *)
Definition create (r : IdempotencyResource) (m : t) : Settled unit * t :=
  if bool_decide (is_Some (m !! idempotencyKey r))
  then (Rejected (AdapterError "Duplicate"), m)
  else (Resolved tt, <[idempotencyKey r := r]> m).

(** [this.idempotencyResources.set(key, idempotencyResource);] *)
Definition update (r : IdempotencyResource) (m : t) : Settled unit * t :=
  (Resolved tt, <[idempotencyKey r := r]> m).

(** [this.idempotencyResources.delete(idempotencyKey);] *)
Definition delete (key : string) (m : t) : Settled unit * t :=
  (Resolved tt, base.delete key m).

End InMemoryDataAdapter.

(** Calls made on a data adapter, for traces of store operations. *)
Inductive AdapterCall : Type :=
| CallFind (key : string)
| CallCreate (r : IdempotencyResource)
| CallUpdate (r : IdempotencyResource)
| CallDelete (key : string).

(** The key an adapter call writes under, if it writes at all. *)
Definition written_key (c : AdapterCall) : option string :=
  match c with
  | CallFind _ => None
  | CallCreate r | CallUpdate r => Some (idempotencyKey r)
  | CallDelete _ => None
  end.

(** One call on the in-memory adapter, keeping the store only. *)
Definition mem_step (m : InMemoryDataAdapter.t) (c : AdapterCall)
  : InMemoryDataAdapter.t :=
  match c with
  | CallFind k => snd (InMemoryDataAdapter.findByIdempotencyKey k m)
  | CallCreate r => snd (InMemoryDataAdapter.create r m)
  | CallUpdate r => snd (InMemoryDataAdapter.update r m)
  | CallDelete k => snd (InMemoryDataAdapter.delete k m)
  end.

(** A sequence of calls, oldest first. *)
Definition mem_run (cs : list AdapterCall) (m : InMemoryDataAdapter.t)
  : InMemoryDataAdapter.t :=
  fold_left mem_step cs m.

(** ** Header filters *)

(** Lower-casing of one character: [A]..[Z] move to [a]..[z], every other
    byte is kept. *)
Definition lower_ascii (c : ascii) : ascii :=
  let n := N_of_ascii c in
  if ((65 <=? n) && (n <=? 90))%N then ascii_of_N (n + 32) else c.

(** [name.toLowerCase()] on a header name. *)
Fixpoint toLowerCase (s : string) : string :=
  match s with
  | EmptyString => EmptyString
  | String c rest => String (lower_ascii c) (toLowerCase rest)
  end.

(** Modelled from the spec: the request-header filter module is not among
    the sources; this is the exact-match denylist of section 4.3. *)
Definition SENSITIVE_HEADERS : list string :=
  [ "authorization"; "proxy-authorization"; "cookie"; "set-cookie";
    "x-auth-token"; "x-csrf-token"; "x-xsrf-token"; "x-api-key" ].

(** Modelled from the spec: the request-header filter module is not among
    the sources; these are the denied prefixes of section 4.3. *)
Definition SENSITIVE_PREFIXES : list string :=
  [ "x-auth-"; "x-token-"; "x-secret-"; "x-key-" ].

(** Modelled from the spec: the request-header filter module is not among
    the sources. A name is sensitive when, lower-cased, it is on the
    denylist or starts with a denied prefix. *)
Definition isSensitiveHeader (name : string) : bool :=
  let lower := toLowerCase name in
  existsb (String.eqb lower) SENSITIVE_HEADERS
  || existsb (fun p => String.prefix p lower) SENSITIVE_PREFIXES.

(** Modelled from the spec: the request-header filter module is not among
    the sources. Redaction removes the sensitive names and keeps every
    other entry as it is. *)
Definition filterRequestHeaders (h : Headers) : Headers :=
  filter (fun kv => isSensitiveHeader kv.1 = false) h.

(** Modelled from the spec: the response-header filter module is not among
    the sources. The whitelist of section 4.3: [content-*],
    [access-control-allow-*] and [location], matched on the lower-cased
    name. *)
Definition isWhitelistedResponseHeader (name : string) : bool :=
  let lower := toLowerCase name in
  String.prefix "content-" lower
  || String.prefix "access-control-allow-" lower
  || String.eqb lower "location".

(** Modelled from the spec: the response-header filter module is not among
    the sources. Only whitelisted names survive. *)
Definition filterResponseHeaders (h : Headers) : Headers :=
  filter (fun kv => isWhitelistedResponseHeader kv.1 = true) h.

(** ** The data adapter contract *)

Module IIdempotencyDataAdapter.

(** [interface IIdempotencyDataAdapter]: the four asynchronous operations
    on a store of type [S]. Each returns the settled promise and the store
    after the call; any of them may reject. *)
Class t (S : Type) : Type := {
  findByIdempotencyKey : string -> S -> Settled (option IdempotencyResource) * S;
  create : IdempotencyResource -> S -> Settled unit * S;
  update : IdempotencyResource -> S -> Settled unit * S;
  delete : string -> S -> Settled unit * S
}.

End IIdempotencyDataAdapter.

(** [class InMemoryDataAdapter implements IIdempotencyDataAdapter] *)
Global Instance InMemoryDataAdapter_adapter
  : IIdempotencyDataAdapter.t InMemoryDataAdapter.t := {|
  IIdempotencyDataAdapter.findByIdempotencyKey := InMemoryDataAdapter.findByIdempotencyKey;
  IIdempotencyDataAdapter.create := InMemoryDataAdapter.create;
  IIdempotencyDataAdapter.update := InMemoryDataAdapter.update;
  IIdempotencyDataAdapter.delete := InMemoryDataAdapter.delete
|}.

(** ** Requests, responses and options of the coordinator *)

(** The inbound request object: what the snapshot is taken from, and the
    per-request hit mark that [isHit] reads. *)
Record Request : Type := {
  incoming : IdempotencyRequest;
  hitMark : bool
}.

(** The outgoing response handle: current status code and headers, the body
    once it was sent, and the capture hook when one is installed (the hook
    owns the Pending resource it completes). *)
Record Response : Type := {
  status : Z;
  outgoingHeaders : Headers;
  sent : option string;
  sendHook : option IdempotencyResource
}.

(** A response handle as the framework hands it over: status 200, no
    header, nothing sent, no hook. *)
Definition createResponse : Response :=
  {| status := 200; outgoingHeaders := ∅; sent := None; sendHook := None |}.

(** Modelled from the spec: the options type is not among the sources. The
    recognized options of section 6; the data adapter is the instance of
    [IIdempotencyDataAdapter.t] in scope. *)
Record IdempotencyOptions : Type := {
  idempotencyKeyHeader : string;
  shouldProcess : Request -> bool;
  isValidForPersistence : IdempotencyResponse -> bool
}.

(** Modelled from the spec: the default intent validator is not among the
    sources. It always proceeds. *)
Definition DefaultIntentValidator (_ : Request) : bool := true.

(** Modelled from the spec: the default response validator is not among
    the sources. Only success-range status codes qualify. *)
Definition SuccessfulResponseValidator (r : IdempotencyResponse) : bool :=
  match statusCode r with
  | Some code => ((200 <=? code) && (code <? 300))%Z
  | None => false
  end.

(** The options of the test-suite's [beforeEach]. *)
Definition defaultOptions : IdempotencyOptions :=
  {| idempotencyKeyHeader := "idempotency-key";
     shouldProcess := DefaultIntentValidator;
     isValidForPersistence := SuccessfulResponseValidator |}.

(** What the continuation saw: never invoked, or invoked once with or
    without an error. *)
Inductive Continuation : Type :=
| NotInvoked
| Next (err : option Error).

(** The result of one run of the middleware function: the request and the
    response handle afterwards, the continuation, and the rejection of the
    returned promise if any. *)
Record Outcome : Type := {
  reqAfter : Request;
  resAfter : Response;
  continuation : Continuation;
  rejection : option Error
}.

(** The store together with the log of the calls made on it. *)
Record World (S : Type) : Type := {
  adapter : S;
  calls : list AdapterCall
}.
Arguments adapter {S} w.
Arguments calls {S} w.

(** Modelled from the spec: [isHit] is not among the sources. It reads the
    mark left on this request object by its latest processing. *)
Definition isHit (req : Request) : bool := hitMark req.

(** Modelled from the spec: the marking is not among the sources. Leaves
    the hit mark [b] on the request object. *)
Definition markHit (b : bool) (req : Request) : Request :=
  {| incoming := incoming req; hitMark := b |}.

(** Modelled from the spec: [extractIdempotencyKeyFromReq] is not among the
    sources. The key is the string value of the configured header. *)
Definition extractIdempotencyKeyFromReq (cfg : IdempotencyOptions)
    (req : Request) : option string :=
  match headers (incoming req) !! idempotencyKeyHeader cfg with
  | Some (HSingle key) => Some key
  | _ => None
  end.

(** Modelled from the spec: the snapshot builder is not among the sources.
    The request as first seen, with the sensitive headers removed. *)
Definition snapshot (req : Request) : IdempotencyRequest :=
  {| method := method (incoming req);
     url := url (incoming req);
     headers := filterRequestHeaders (headers (incoming req));
     body := body (incoming req);
     query := query (incoming req) |}.

(** Modelled from the spec: the placeholder builder is not among the
    sources. The Pending resource created on a miss: the key, the redacted
    snapshot, no response. *)
Definition pendingResource (key : string) (req : Request)
  : IdempotencyResource :=
  {| idempotencyKey := key; request := snapshot req; response := None |}.

(** Modelled from the spec: the state test is not among the sources (the
    test-suite names it: [availableResponse.statusCode !== undefined]).
    A resource is Completed when it has a response whose status code is
    defined; the result is that status code and response. *)
Definition completed (r : IdempotencyResource)
  : option (Z * IdempotencyResponse) :=
  match response r with
  | Some resp =>
      match statusCode resp with
      | Some code => Some (code, resp)
      | None => None
      end
  | None => None
  end.

(** Modelled from the spec: the signature comparison is not among the
    sources. The stored snapshot and the request agree on method and URL. *)
Definition requestsMatch (stored : IdempotencyRequest) (req : Request) : bool :=
  bool_decide (method stored = method (incoming req))
  && bool_decide (url stored = url (incoming req)).

(** Modelled from the spec: the replay is not among the sources. Sets the
    status code, re-applies the whitelisted headers one by one over what
    the handle already carries, and writes the cached body. *)
Definition restore (code : Z) (resp : IdempotencyResponse) (res : Response)
  : Response :=
  {| status := code;
     outgoingHeaders :=
       filterResponseHeaders (responseHeaders resp) ∪ outgoingHeaders res;
     sent := Some (responseBody resp);
     sendHook := sendHook res |}.

(** Modelled from the spec: the framework's [send] is not among the
    sources. The original finalization of the handle commits the body. *)
Definition defaultSend (payload : string) (res : Response) : Response :=
  {| status := status res;
     outgoingHeaders := outgoingHeaders res;
     sent := Some payload;
     sendHook := sendHook res |}.

(** Modelled from the spec: the hook installation is not among the
    sources. Installs the capture hook for [resource] on the handle. *)
Definition setupHooks (resource : IdempotencyResource) (res : Response)
  : Response :=
  {| status := status res;
     outgoingHeaders := outgoingHeaders res;
     sent := sent res;
     sendHook := Some resource |}.

(** Modelled from the spec: the completion of a resource is not among the
    sources. The resource with its captured response; key and snapshot are
    kept. *)
Definition withResponse (resource : IdempotencyResource)
    (resp : IdempotencyResponse) : IdempotencyResource :=
  {| idempotencyKey := idempotencyKey resource;
     request := request resource;
     response := Some resp |}.

(** ** The coordinator *)

Section Coordinator.

Context {S : Type} `{!IIdempotencyDataAdapter.t S}.

(** The four adapter calls as the coordinator makes them: the call is
    appended to the log and the store is replaced by the one the adapter
    returns. *)
Definition callFind (key : string) (w : World S)
  : Settled (option IdempotencyResource) * World S :=
  let '(r, s) := IIdempotencyDataAdapter.findByIdempotencyKey key (adapter w) in
  (r, {| adapter := s; calls := calls w ++ [CallFind key] |}).

Definition callCreate (resource : IdempotencyResource) (w : World S)
  : Settled unit * World S :=
  let '(r, s) := IIdempotencyDataAdapter.create resource (adapter w) in
  (r, {| adapter := s; calls := calls w ++ [CallCreate resource] |}).

Definition callUpdate (resource : IdempotencyResource) (w : World S)
  : Settled unit * World S :=
  let '(r, s) := IIdempotencyDataAdapter.update resource (adapter w) in
  (r, {| adapter := s; calls := calls w ++ [CallUpdate resource] |}).

Definition callDelete (key : string) (w : World S)
  : Settled unit * World S :=
  let '(r, s) := IIdempotencyDataAdapter.delete key (adapter w) in
  (r, {| adapter := s; calls := calls w ++ [CallDelete key] |}).

(** Modelled from the spec: the hand-over is not among the sources. Hands
    control to the continuation, leaving the mark [hit] on the request. *)
Definition finish (hit : bool) (req : Request) (res : Response)
    (err : option Error) : Outcome :=
  {| reqAfter := markHit hit req;
     resAfter := res;
     continuation := Next err;
     rejection := None |}.

(** Modelled from the spec: [IdempotencyService.provideMiddlewareFunction]
    is not among the sources. The algorithm of section 4.1:
    + no key: pass through;
    + the intent validator declines: the request is not subject to
      idempotency handling, pass through;
    + the lookup rejects: the processing is aborted and the rejection
      propagates;
    + no resource: create the Pending placeholder from the redacted
      snapshot; when the creation succeeds install the capture hook and go
      on, when it fails treat the request as having met a Pending resource;
    + a Pending resource: conflict;
    + a Completed resource: misuse when method or URL differ, else replay
      the response, mark the hit and go on. *)
Definition provideMiddlewareFunction (cfg : IdempotencyOptions)
    (req : Request) (res : Response) (w : World S) : Outcome * World S :=
  match extractIdempotencyKeyFromReq cfg req with
  | None => (finish false req res None, w)
  | Some key =>
      if shouldProcess cfg req then
        match callFind key w with
        | (Rejected e, w1) =>
            ({| reqAfter := req; resAfter := res;
                continuation := NotInvoked; rejection := Some e |}, w1)
        | (Resolved None, w1) =>
            let resource := pendingResource key req in
            match callCreate resource w1 with
            | (Resolved _, w2) =>
                (finish false req (setupHooks resource res) None, w2)
            | (Rejected _, w2) =>
                (finish false req res (Some ConflictError), w2)
            end
        | (Resolved (Some resource), w1) =>
            match completed resource with
            | None => (finish false req res (Some ConflictError), w1)
            | Some (code, resp) =>
                if requestsMatch (request resource) req
                then (finish true req (restore code resp res) None, w1)
                else (finish false req res (Some MisuseError), w1)
            end
        end
      else (finish false req res None, w)
  end.

(** Modelled from the spec: the response builder is not among the sources.
    What the hook captures when the handler finalizes the response with
    [payload]: status code, whitelisted headers, body. *)
Definition capture (payload : string) (res : Response) : IdempotencyResponse :=
  {| statusCode := Some (status res);
     responseHeaders := filterResponseHeaders (outgoingHeaders res);
     responseBody := payload |}.

(** Modelled from the spec: the cleanup is not among the sources. Releases
    the placeholder of [key]; [errs] are the failures met so far, a failing
    deletion is added to them. *)
Definition release (key : string) (errs : list Error) (w : World S)
  : list Error * World S :=
  match callDelete key w with
  | (Resolved _, w1) => (errs, w1)
  | (Rejected e, w1) => ((errs ++ [e])%list, w1)
  end.

(** Modelled from the spec: the response capture hook is not among the
    sources. Section 4.2: [res.send(payload)] with the hook installed
    captures the outcome, asks the response validator, completes the
    resource or releases the placeholder, and in every case finalizes the
    handle as the original [send] does. The errors that surface are
    returned with the handle. *)
Definition send (cfg : IdempotencyOptions) (payload : string)
    (res : Response) (w : World S) : (Response * list Error) * World S :=
  match sendHook res with
  | None => ((defaultSend payload res, []), w)
  | Some resource =>
      let captured := capture payload res in
      let '(errs, w') :=
        if isValidForPersistence cfg captured then
          match callUpdate (withResponse resource captured) w with
          | (Resolved _, w1) => ([], w1)
          | (Rejected e, w1) => release (idempotencyKey resource) [e] w1
          end
        else release (idempotencyKey resource) [] w
      in
      ((defaultSend payload res, errs), w')
  end.

(** Modelled from the spec: [IdempotencyService.reportError] is not among
    the sources. Without a key nothing happens; otherwise the resource of
    the key is deleted and a failing deletion propagates. *)
Definition reportError (cfg : IdempotencyOptions) (req : Request)
    (w : World S) : option Error * World S :=
  match extractIdempotencyKeyFromReq cfg req with
  | None => (None, w)
  | Some key =>
      match callDelete key w with
      | (Resolved _, w1) => (None, w1)
      | (Rejected e, w1) => (Some e, w1)
      end
  end.

End Coordinator.

(** A world over a fresh in-memory adapter. *)
Definition freshWorld : World InMemoryDataAdapter.t :=
  {| adapter := InMemoryDataAdapter.init; calls := [] |}.

(** ** Requests and resources of the test-suite *)

(** The idempotency key of the scenarios (the tests draw a UUID). *)
Definition sampleKey : string := "0b4d8c1e-5a51-4c1b-9d5e-2f6f3c7a9e10".

(** [createRequest({url, method, headers})] *)
Definition createRequest (m u : string) (h : Headers) : Request :=
  {| incoming := {| method := m; url := u; headers := h;
                    body := ""; query := "" |};
     hitMark := false |}.

(** ['indicates misuse of the idempotency key']: the first request. *)
Definition postSomething : Request :=
  createRequest "POST" "https://something"
    {[ "idempotency-key" := HSingle sampleKey ]}.

(** ['indicates misuse of the idempotency key']: the second request. *)
Definition postSomethingElse : Request :=
  createRequest "POST" "https://something-else"
    {[ "idempotency-key" := HSingle sampleKey ]}.

(** ['pass through the request without alteration if no idempotency key'] *)
Definition keylessRequest : Request :=
  createRequest "GET" "" ∅.

(** ['filters sensitive headers case-insensitively'] *)
Definition mixedCaseRequest : Request :=
  createRequest "POST" "https://test"
    (<[ "idempotency-key" := HSingle sampleKey ]>
     (<[ "Authorization" := HSingle "Bearer token" ]>
      (<[ "COOKIE" := HSingle "session=123" ]>
       (<[ "X-API-KEY" := HSingle "key123" ]>
        {[ "Content-Type" := HSingle "application/json" ]})))).

(** ['handles response with statusCode undefined (corrupted data)'] *)
Definition corruptedResource : IdempotencyResource :=
  {| idempotencyKey := sampleKey;
     request := incoming postSomething;
     response := Some {| statusCode := None; responseHeaders := ∅;
                         responseBody := "test" |} |}.

(** A resource completed with [201] and a JSON body, as in the example of
    section 8. *)
Definition createdResource : IdempotencyResource :=
  {| idempotencyKey := sampleKey;
     request := snapshot postSomething;
     response :=
       Some {| statusCode := Some 201%Z;
               responseHeaders :=
                 {[ "content-type" := HSingle "application/json" ]};
               responseBody := "{id:1}" |} |}.

(** A world whose in-memory adapter holds exactly [r]. *)
Definition worldWith (r : IdempotencyResource) : World InMemoryDataAdapter.t :=
  {| adapter := {[ idempotencyKey r := r ]}; calls := [] |}.

(** ** Calls, clones and stubs of the test-suite *)

(** The key an adapter call is about. *)
Definition call_key (c : AdapterCall) : string :=
  match c with
  | CallFind k | CallDelete k => k
  | CallCreate r | CallUpdate r => idempotencyKey r
  end.

(** Every resource of the store sits under its own idempotency key. *)
Definition well_keyed (m : InMemoryDataAdapter.t) : Prop :=
  map_Forall (fun K r => idempotencyKey r = K) m.

(** [createCloneRequest(req)]: a new request object with the URL, the
    method and the headers of [req]. *)
Definition createCloneRequest (req : Request) : Request :=
  createRequest (method (incoming req)) (url (incoming req))
    (headers (incoming req)).

(** [sinon.stub(dataAdapter, 'delete').throws('Doh!')]: the in-memory
    adapter with a [delete] that fails and leaves the store alone. *)
Definition deleteThrows : IIdempotencyDataAdapter.t InMemoryDataAdapter.t := {|
  IIdempotencyDataAdapter.findByIdempotencyKey := InMemoryDataAdapter.findByIdempotencyKey;
  IIdempotencyDataAdapter.create := InMemoryDataAdapter.create;
  IIdempotencyDataAdapter.update := InMemoryDataAdapter.update;
  IIdempotencyDataAdapter.delete := fun _ m => (Rejected (AdapterError "Doh!"), m)
|}.

(** [sinon.stub(dataAdapter, 'findByIdempotencyKey')
      .rejects(new Error('Database error'))] *)
Definition findRejects : IIdempotencyDataAdapter.t InMemoryDataAdapter.t := {|
  IIdempotencyDataAdapter.findByIdempotencyKey :=
    fun _ m => (Rejected (AdapterError "Database error"), m);
  IIdempotencyDataAdapter.create := InMemoryDataAdapter.create;
  IIdempotencyDataAdapter.update := InMemoryDataAdapter.update;
  IIdempotencyDataAdapter.delete := InMemoryDataAdapter.delete
|}.

(** [sinon.stub(responseValidator, 'isValidForPersistence').returns(false)]
    on the options of [beforeEach]. *)
Definition refusingOptions : IdempotencyOptions :=
  {| idempotencyKeyHeader := "idempotency-key";
     shouldProcess := DefaultIntentValidator;
     isValidForPersistence := fun _ => false |}.

(** A second resource for [sampleKey], Pending, for another request. *)
Definition rivalResource : IdempotencyResource :=
  {| idempotencyKey := sampleKey;
     request := snapshot postSomethingElse;
     response := None |}.

(** The handle of the first request once the handler has set [201], a
    content type and a cache directive on it; the hook of the placeholder
    of [postSomething] is installed. *)
Definition handledResponse : Response :=
  {| status := 201;
     outgoingHeaders :=
       <[ "Content-Type" := HSingle "application/json" ]>
         {[ "Cache-Control" := HSingle "no-cache" ]};
     sent := None;
     sendHook := Some (pendingResource sampleKey postSomething) |}.


(** * Properties of the in-memory data adapter *)

Section InMemoryDataAdapterFacts.

Import InMemoryDataAdapter.

Implicit Types (m : gmap string IdempotencyResource).
Implicit Types (r : IdempotencyResource) (K : string).

(** Reading a key back from a store is the map lookup. *)
Lemma find_lookup K m : (findByIdempotencyKey K m).1 = Resolved (m !! K).
Proof. reflexivity. Qed.

(** A lookup never changes the store. *)
Lemma find_pure K m : (findByIdempotencyKey K m).2 = m.
Proof. reflexivity. Qed.

Lemma create_present r m :
  is_Some (m !! idempotencyKey r) ->
  create r m = (Rejected (AdapterError "Duplicate"), m).
Proof. intros Hk. unfold create. by rewrite bool_decide_eq_true_2. Qed.

Lemma create_absent r m :
  m !! idempotencyKey r = None ->
  create r m = (Resolved tt, <[idempotencyKey r := r]> m).
Proof.
  intros Hk. unfold create. rewrite bool_decide_eq_false_2; [done|].
  rewrite Hk. by intros [? ?].
Qed.

(** One call leaves every key it does not write or delete as it was. *)
Lemma mem_step_other c m K :
  written_key c ≠ Some K -> c ≠ CallDelete K ->
  mem_step m c !! K = m !! K.
Proof.
  destruct c as [k|r|r|k]; simpl; intros Hw Hd; try done.
  - unfold create. case_bool_decide; simpl; [done|].
    apply lookup_insert_ne. congruence.
  - apply lookup_insert_ne. congruence.
  - apply lookup_delete_ne. congruence.
Qed.

(** A call that does not write [K] cannot bring [K] into the store. *)
Lemma mem_step_absent c m K :
  written_key c ≠ Some K -> m !! K = None -> mem_step m c !! K = None.
Proof.
  intros Hw Hm. destruct c as [k|r|r|k]; try (by rewrite mem_step_other).
  simpl. destruct (decide (k = K)) as [->|Hne].
  - apply lookup_delete_eq.
  - by rewrite lookup_delete_ne.
Qed.

Lemma mem_run_absent cs m K :
  Forall (fun c => written_key c ≠ Some K) cs ->
  m !! K = None -> mem_run cs m !! K = None.
Proof.
  unfold mem_run. intros Hcs. revert m.
  induction Hcs as [|c cs Hc _ IH]; intros m Hm; simpl; [done|].
  apply IH. by apply mem_step_absent.
Qed.

(** C4: [create r] is rejected exactly when the key of [r] is already in
    the store; a rejected [create] leaves the store, and so the resource
    held for that key, as it was; when the key is free [create r] resolves
    and the store then holds [r] under its key. *)
Theorem create_fails_exactly_on_existing_key m r :
  ((exists e, (create r m).1 = Rejected e) <-> is_Some (m !! idempotencyKey r))
  /\ (forall old, m !! idempotencyKey r = Some old ->
        (create r m).2 = m
        /\ (findByIdempotencyKey (idempotencyKey r) (create r m).2).1
           = Resolved (Some old))
  /\ (m !! idempotencyKey r = None ->
        (create r m).1 = Resolved tt
        /\ (findByIdempotencyKey (idempotencyKey r) (create r m).2).1
           = Resolved (Some r)).
Proof.
  split; [|split].
  - split.
    + intros [e He]. destruct (m !! idempotencyKey r) eqn:Hk; [by eexists|].
      rewrite create_absent in He by done. discriminate.
    + intros Hk. rewrite create_present by done. by eexists.
  - intros old Hk. rewrite find_lookup, create_present by (by eexists).
    simpl. by rewrite Hk.
  - intros Hk. rewrite find_lookup, create_absent by done.
    simpl. by rewrite lookup_insert_eq.
Qed.

(** C7: [delete K] always resolves, also when the store holds nothing for
    [K]; afterwards a lookup of [K] finds nothing; a second [delete K]
    gives the same result and store as the first. *)
Theorem delete_is_idempotent m K :
  (delete K m).1 = Resolved tt
  /\ (findByIdempotencyKey K (delete K m).2).1 = Resolved None
  /\ delete K (delete K m).2 = delete K m.
Proof.
  split; [done|]. split.
  - rewrite find_lookup. unfold delete; simpl. by rewrite lookup_delete_eq.
  - unfold delete; simpl. f_equal. apply map_eq. intros k.
    destruct (decide (K = k)) as [->|Hne].
    + by rewrite !lookup_delete_eq.
    + by rewrite !lookup_delete_ne.
Qed.

(** C8: after a [create r] that resolved, a lookup of the key of [r]
    returns [r] itself. A key finds nothing when the store holds nothing
    for it: in a fresh adapter, after any sequence of calls none of which
    stores a resource under the key, and after a [delete] of the key
    followed by such calls. *)
Theorem find_returns_what_was_created m r K cs :
  ((create r m).1 = Resolved tt ->
     (findByIdempotencyKey (idempotencyKey r) (create r m).2).1
     = Resolved (Some r))
  /\ (findByIdempotencyKey K init).1 = Resolved None
  /\ (Forall (fun c => written_key c ≠ Some K) cs ->
        (findByIdempotencyKey K (mem_run cs init)).1 = Resolved None
        /\ (findByIdempotencyKey K (mem_run cs (delete K m).2)).1
           = Resolved None).
Proof.
  split; [|split].
  - intros Hok. destruct (m !! idempotencyKey r) eqn:Hk.
    + rewrite create_present in Hok by (by eexists). discriminate.
    + rewrite find_lookup, create_absent by done. simpl.
      by rewrite lookup_insert_eq.
  - by rewrite find_lookup.
  - intros Hcs. rewrite !find_lookup. split; f_equal.
    + by apply mem_run_absent.
    + apply mem_run_absent; [done|]. apply lookup_delete_eq.
Qed.

(** C9: for two distinct keys, [create], [update] and [delete] on the
    first leave what a lookup of the second returns unchanged, be it a
    resource or nothing. *)
Theorem other_keys_are_untouched m r K1 K2 :
  K1 ≠ K2 -> idempotencyKey r = K1 ->
  (findByIdempotencyKey K2 (create r m).2).1 = (findByIdempotencyKey K2 m).1
  /\ (findByIdempotencyKey K2 (update r m).2).1 = (findByIdempotencyKey K2 m).1
  /\ (findByIdempotencyKey K2 (delete K1 m).2).1 = (findByIdempotencyKey K2 m).1.
Proof.
  intros Hne <-. rewrite !find_lookup. repeat split; f_equal.
  - apply (mem_step_other (CallCreate r)); simpl; congruence.
  - apply (mem_step_other (CallUpdate r)); simpl; congruence.
  - apply (mem_step_other (CallDelete (idempotencyKey r))); simpl; congruence.
Qed.

(** C10: [update r] always resolves and a lookup of the key of [r] then
    returns [r] itself, also when the store held nothing for the key; what
    is read back does not depend on what the store held before: the
    resource is replaced as a whole. *)
Theorem update_is_an_upsert m r :
  (update r m).1 = Resolved tt
  /\ (findByIdempotencyKey (idempotencyKey r) (update r m).2).1
     = Resolved (Some r)
  /\ (findByIdempotencyKey (idempotencyKey r)
        (update r (delete (idempotencyKey r) m).2).2).1 = Resolved (Some r)
  /\ (forall old,
        idempotencyKey old = idempotencyKey r ->
        (update r (update old m).2).2 = (update r m).2).
Proof.
  rewrite !find_lookup. unfold update, delete; simpl.
  rewrite !lookup_insert_eq. repeat split; try done.
  intros old ->. apply insert_insert_eq.
Qed.

End InMemoryDataAdapterFacts.

(** * Properties of the header filters *)

Section HeaderFilterFacts.

Implicit Types (h : Headers) (name : string).

(** The sensitivity test says what section 4.3 says: the lower-cased name
    is on the denylist or starts with a denied prefix. *)
Lemma isSensitiveHeader_spec name :
  isSensitiveHeader name = true <->
  In (toLowerCase name) SENSITIVE_HEADERS
  \/ exists p, In p SENSITIVE_PREFIXES
               /\ String.prefix p (toLowerCase name) = true.
Proof.
  unfold isSensitiveHeader. cbv zeta.
  rewrite orb_true_iff, !existsb_exists. split.
  - intros [(x & Hx & Heq)|(p & Hp & Hpre)].
    + left. apply String.eqb_eq in Heq. by subst.
    + right. by exists p.
  - intros [Hin|(p & Hp & Hpre)].
    + left. exists (toLowerCase name). split; [done|]. apply String.eqb_refl.
    + right. by exists p.
Qed.

(** Redaction, key by key. *)
Lemma filterRequestHeaders_lookup h name :
  filterRequestHeaders h !! name
  = if isSensitiveHeader name then None else h !! name.
Proof.
  unfold filterRequestHeaders. rewrite map_lookup_filter.
  destruct (h !! name) as [v|]; simpl; [|by destruct (isSensitiveHeader name)].
  destruct (isSensitiveHeader name) eqn:E.
  - by rewrite option_guard_False.
  - by rewrite option_guard_True.
Qed.

(** The whitelist, key by key. *)
Lemma filterResponseHeaders_lookup h name :
  filterResponseHeaders h !! name
  = if isWhitelistedResponseHeader name then h !! name else None.
Proof.
  unfold filterResponseHeaders. rewrite map_lookup_filter.
  destruct (h !! name) as [v|]; simpl;
    [|by destruct (isWhitelistedResponseHeader name)].
  destruct (isWhitelistedResponseHeader name) eqn:E.
  - by rewrite option_guard_True.
  - by rewrite option_guard_False.
Qed.

(** Filtering a second time changes nothing: what was captured is replayed
    as it was stored. *)
Lemma filterResponseHeaders_idemp h :
  filterResponseHeaders (filterResponseHeaders h) = filterResponseHeaders h.
Proof.
  apply map_eq. intros name. rewrite !filterResponseHeaders_lookup.
  by destruct (isWhitelistedResponseHeader name).
Qed.

End HeaderFilterFacts.

(** * Properties of the coordinator *)

Section CoordinatorFacts.

Context {S : Type} `{!IIdempotencyDataAdapter.t S}.

Implicit Types (cfg : IdempotencyOptions) (req : Request) (res : Response).
Implicit Types (w : World S) (K : string) (r : IdempotencyResource).

(** The logged lookup, once the adapter's answer is known. *)
Lemma callFind_eq K w answer s1 :
  IIdempotencyDataAdapter.findByIdempotencyKey K (adapter w) = (answer, s1) ->
  callFind K w
  = (answer, {| adapter := s1; calls := calls w ++ [CallFind K] |}).
Proof. intros Hf. unfold callFind. by rewrite Hf. Qed.

(** A request without the configured header carries no key. *)
Lemma extract_absent cfg req :
  headers (incoming req) !! idempotencyKeyHeader cfg = None ->
  extractIdempotencyKeyFromReq cfg req = None.
Proof. intros Hh. unfold extractIdempotencyKeyFromReq. by rewrite Hh. Qed.

(** The state test on a resource with a defined status code. *)
Lemma completed_Some r resp code :
  response r = Some resp -> statusCode resp = Some code ->
  completed r = Some (code, resp).
Proof. intros Hr Hc. unfold completed. by rewrite Hr, Hc. Qed.


(** The run of the middleware function on a key whose lookup resolved with
    a resource: only the state of the resource and the signature decide. *)
Lemma provide_found cfg req res w K r s1 :
  extractIdempotencyKeyFromReq cfg req = Some K ->
  shouldProcess cfg req = true ->
  IIdempotencyDataAdapter.findByIdempotencyKey K (adapter w)
  = (Resolved (Some r), s1) ->
  provideMiddlewareFunction cfg req res w
  = (match completed r with
     | None => finish false req res (Some ConflictError)
     | Some (code, resp) =>
         if requestsMatch (request r) req
         then finish true req (restore code resp res) None
         else finish false req res (Some MisuseError)
     end,
     {| adapter := s1; calls := calls w ++ [CallFind K] |}).
Proof.
  intros Hk Hi Hf. unfold provideMiddlewareFunction.
  rewrite Hk, Hi, (callFind_eq _ _ _ _ Hf).
  destruct (completed r) as [[code resp]|]; [|done].
  by destruct (requestsMatch (request r) req).
Qed.

(** C1: when the lookup of the request's key resolves with a Completed
    resource whose snapshot has the method and URL of the request, the
    run is a cache hit: the continuation is invoked without an error, the
    promise is not rejected, [isHit] holds on the request, the handle
    carries the stored status code and the stored body, every whitelisted
    header of the stored response is on the handle with its stored value,
    no other header of the handle is touched (on a handle without headers
    the headers are exactly the whitelisted stored ones), no hook is
    installed and the store saw the lookup only. *)
Theorem completed_resource_is_replayed cfg req res w K r resp code s1 :
  extractIdempotencyKeyFromReq cfg req = Some K ->
  shouldProcess cfg req = true ->
  IIdempotencyDataAdapter.findByIdempotencyKey K (adapter w)
  = (Resolved (Some r), s1) ->
  response r = Some resp -> statusCode resp = Some code ->
  method (request r) = method (incoming req) ->
  url (request r) = url (incoming req) ->
  let out := provideMiddlewareFunction cfg req res w in
  continuation out.1 = Next None
  /\ rejection out.1 = None
  /\ isHit (reqAfter out.1) = true
  /\ status (resAfter out.1) = code
  /\ sent (resAfter out.1) = Some (responseBody resp)
  /\ (forall name v,
        isWhitelistedResponseHeader name = true ->
        responseHeaders resp !! name = Some v ->
        outgoingHeaders (resAfter out.1) !! name = Some v)
  /\ (forall name,
        isWhitelistedResponseHeader name = false
        \/ responseHeaders resp !! name = None ->
        outgoingHeaders (resAfter out.1) !! name = outgoingHeaders res !! name)
  /\ (outgoingHeaders res = ∅ ->
        outgoingHeaders (resAfter out.1)
        = filterResponseHeaders (responseHeaders resp))
  /\ sendHook (resAfter out.1) = sendHook res
  /\ out.2 = {| adapter := s1; calls := calls w ++ [CallFind K] |}.
Proof.
  intros Hk Hi Hf Hr Hc Hm Hu out. subst out.
  rewrite (provide_found _ _ _ _ _ _ _ Hk Hi Hf), (completed_Some _ _ _ Hr Hc).
  unfold requestsMatch. rewrite !bool_decide_eq_true_2 by done. simpl.
  repeat split.
  - intros name v Hwl Hv. apply lookup_union_Some_l.
    by rewrite filterResponseHeaders_lookup, Hwl.
  - intros name Hno. apply lookup_union_r.
    rewrite filterResponseHeaders_lookup.
    destruct Hno as [->|Hno]; [done|].
    by destruct (isWhitelistedResponseHeader name).
  - intros ->. apply map_eq. intros name.
    rewrite lookup_union_l; [done|apply lookup_empty].
Qed.


(** C3: when the lookup of the request's key resolves with a Completed
    resource whose snapshot differs from the request in method or in URL,
    the continuation is invoked with the misuse error, which is not the
    conflict error; nothing is replayed: the response handle is left as it
    was, the request is not a hit and the store saw the lookup only. *)
Theorem reused_key_is_a_misuse cfg req res w K r resp code s1 :
  extractIdempotencyKeyFromReq cfg req = Some K ->
  shouldProcess cfg req = true ->
  IIdempotencyDataAdapter.findByIdempotencyKey K (adapter w)
  = (Resolved (Some r), s1) ->
  response r = Some resp -> statusCode resp = Some code ->
  method (request r) ≠ method (incoming req)
  \/ url (request r) ≠ url (incoming req) ->
  let out := provideMiddlewareFunction cfg req res w in
  continuation out.1 = Next (Some MisuseError)
  /\ MisuseError ≠ ConflictError
  /\ rejection out.1 = None
  /\ isHit (reqAfter out.1) = false
  /\ resAfter out.1 = res
  /\ out.2 = {| adapter := s1; calls := calls w ++ [CallFind K] |}.
Proof.
  intros Hk Hi Hf Hr Hc Hd out. subst out.
  rewrite (provide_found _ _ _ _ _ _ _ Hk Hi Hf), (completed_Some _ _ _ Hr Hc).
  assert (requestsMatch (request r) req = false) as ->.
  { unfold requestsMatch. apply andb_false_iff.
    destruct Hd as [Hd|Hd]; [left|right]; by apply bool_decide_eq_false_2. }
  by repeat split.
Qed.

(** C5: a request without the configured key header passes through: the
    continuation is invoked without an error, the promise is not rejected,
    [isHit] is false on the request, the response handle is left as it
    was, and the world is the one before: the adapter was not called and
    its store is the same. *)
Theorem keyless_request_passes_through cfg req res w :
  headers (incoming req) !! idempotencyKeyHeader cfg = None ->
  let out := provideMiddlewareFunction cfg req res w in
  continuation out.1 = Next None
  /\ rejection out.1 = None
  /\ isHit (reqAfter out.1) = false
  /\ resAfter out.1 = res
  /\ calls out.2 = calls w
  /\ out.2 = w.
Proof.
  intros Hh out. subst out. unfold provideMiddlewareFunction.
  by rewrite (extract_absent _ _ Hh).
Qed.

(** C6: on a cache miss the resource handed to the adapter's [create] is
    the Pending placeholder of the key, and the headers of its request
    snapshot hold no name that, lower-cased, is on the denylist or starts
    with a denied prefix, while every other header of the request is in
    the snapshot with its value, and nothing else is. When [create]
    resolves, the capture hook of that resource is installed and the
    continuation is invoked without an error. *)
Theorem stored_snapshot_is_redacted cfg req res w K s1 :
  extractIdempotencyKeyFromReq cfg req = Some K ->
  shouldProcess cfg req = true ->
  IIdempotencyDataAdapter.findByIdempotencyKey K (adapter w)
  = (Resolved None, s1) ->
  let out := provideMiddlewareFunction cfg req res w in
  exists stored,
    calls out.2 = (calls w ++ [CallFind K; CallCreate stored])%list
    /\ adapter out.2 = (IIdempotencyDataAdapter.create stored s1).2
    /\ idempotencyKey stored = K
    /\ response stored = None
    /\ (forall name,
          In (toLowerCase name) SENSITIVE_HEADERS
          \/ (exists p, In p SENSITIVE_PREFIXES
                        /\ String.prefix p (toLowerCase name) = true) ->
          headers (request stored) !! name = None)
    /\ (forall name,
          ~ (In (toLowerCase name) SENSITIVE_HEADERS
             \/ (exists p, In p SENSITIVE_PREFIXES
                           /\ String.prefix p (toLowerCase name) = true)) ->
          headers (request stored) !! name = headers (incoming req) !! name)
    /\ ((IIdempotencyDataAdapter.create stored s1).1 = Resolved tt ->
          continuation out.1 = Next None
          /\ sendHook (resAfter out.1) = Some stored
          /\ isHit (reqAfter out.1) = false).
Proof.
  intros Hk Hi Hf out. subst out. exists (pendingResource K req).
  unfold provideMiddlewareFunction.
  rewrite Hk, Hi, (callFind_eq _ _ _ _ Hf). unfold callCreate. simpl.
  destruct (IIdempotencyDataAdapter.create (pendingResource K req) s1)
    as [[[]|e] s2] eqn:Hc; simpl.
  all: rewrite <- ?app_assoc; simpl.
  all: repeat split; try done.
  all: try (intros name Hs; rewrite filterRequestHeaders_lookup).
  all: try (apply isSensitiveHeader_spec in Hs as ->; done).
  all: destruct (isSensitiveHeader name) eqn:E; [|done].
  all: by apply isSensitiveHeader_spec in E.
Qed.

(** A creation that fails although the lookup found nothing, the race of
    section 4.1, is answered like a Pending resource: with the conflict
    error and without a hook. *)
Lemma lost_race_is_a_conflict cfg req res w K s1 e s2 :
  extractIdempotencyKeyFromReq cfg req = Some K ->
  shouldProcess cfg req = true ->
  IIdempotencyDataAdapter.findByIdempotencyKey K (adapter w)
  = (Resolved None, s1) ->
  IIdempotencyDataAdapter.create (pendingResource K req) s1
  = (Rejected e, s2) ->
  (provideMiddlewareFunction cfg req res w).1
  = finish false req res (Some ConflictError).
Proof.
  intros Hk Hi Hf Hc. unfold provideMiddlewareFunction.
  rewrite Hk, Hi, (callFind_eq _ _ _ _ Hf). unfold callCreate. simpl.
  by rewrite Hc.
Qed.

(** X15: a failing lookup aborts the processing: the continuation is never
    invoked and the rejection is the adapter's. *)
Lemma failed_lookup_propagates cfg req res w K e s1 :
  extractIdempotencyKeyFromReq cfg req = Some K ->
  shouldProcess cfg req = true ->
  IIdempotencyDataAdapter.findByIdempotencyKey K (adapter w)
  = (Rejected e, s1) ->
  continuation (provideMiddlewareFunction cfg req res w).1 = NotInvoked
  /\ rejection (provideMiddlewareFunction cfg req res w).1 = Some e.
Proof.
  intros Hk Hi Hf. unfold provideMiddlewareFunction.
  by rewrite Hk, Hi, (callFind_eq _ _ _ _ Hf).
Qed.

(** [reportError] on a request without a key calls nothing. *)
Lemma reportError_without_key cfg req w :
  extractIdempotencyKeyFromReq cfg req = None ->
  reportError cfg req w = (None, w).
Proof. intros Hk. unfold reportError. by rewrite Hk. Qed.

End CoordinatorFacts.

(** * The coordinator over the in-memory adapter *)

Section InMemoryCoordinatorFacts.

Implicit Types (cfg : IdempotencyOptions) (req : Request) (res : Response).
Implicit Types (m : gmap string IdempotencyResource) (K : string).

(** A miss on the in-memory adapter: the placeholder is in the store under
    the key, the hook is installed and the continuation goes on. *)
Lemma miss_creates_placeholder cfg req res m K log :
  extractIdempotencyKeyFromReq cfg req = Some K ->
  shouldProcess cfg req = true ->
  m !! K = None ->
  provideMiddlewareFunction cfg req res {| adapter := m; calls := log |}
  = (finish false req (setupHooks (pendingResource K req) res) None,
     {| adapter := <[K := pendingResource K req]> m;
        calls := log ++ [CallFind K; CallCreate (pendingResource K req)] |}).
Proof.
  intros Hk Hi Hm. unfold provideMiddlewareFunction.
  rewrite Hk, Hi. unfold callFind, callCreate. simpl. rewrite Hm.
  rewrite create_absent by done.
  by rewrite <- app_assoc.
Qed.

(** The redacted snapshot is what a later lookup of the key reads. *)
Lemma miss_persists_redacted_snapshot cfg req res m K log name :
  extractIdempotencyKeyFromReq cfg req = Some K ->
  shouldProcess cfg req = true ->
  m !! K = None ->
  exists stored,
    adapter (provideMiddlewareFunction cfg req res
               {| adapter := m; calls := log |}).2 !! K = Some stored
    /\ headers (request stored) !! name
       = if isSensitiveHeader name then None
         else headers (incoming req) !! name.
Proof.
  intros Hk Hi Hm. exists (pendingResource K req).
  rewrite (miss_creates_placeholder _ _ _ _ _ _ Hk Hi Hm). simpl.
  split; [apply lookup_insert_eq|apply filterRequestHeaders_lookup].
Qed.

(** X10: the whole life of a key on the in-memory adapter: the first request
    misses and claims the key; a retry that arrives before the handler
    finalized meets a conflict; the handler sets status and headers on the
    handle and sends [payload], the hook captures it and the validator
    approves; a retry with the same method and URL on a new handle is then
    a hit whose status, headers and body are the captured ones. *)
Theorem replay_after_capture cfg req1 req2 res1 handled payload m K log :
  extractIdempotencyKeyFromReq cfg req1 = Some K ->
  extractIdempotencyKeyFromReq cfg req2 = Some K ->
  shouldProcess cfg req1 = true ->
  shouldProcess cfg req2 = true ->
  method (incoming req2) = method (incoming req1) ->
  url (incoming req2) = url (incoming req1) ->
  m !! K = None ->
  let first :=
    provideMiddlewareFunction cfg req1 res1 {| adapter := m; calls := log |} in
  sendHook handled = sendHook (resAfter first.1) ->
  isValidForPersistence cfg (capture payload handled) = true ->
  let early := provideMiddlewareFunction cfg req2 createResponse first.2 in
  let finalized := send cfg payload handled first.2 in
  let second := provideMiddlewareFunction cfg req2 createResponse finalized.2 in
  continuation first.1 = Next None
  /\ continuation early.1 = Next (Some ConflictError)
  /\ finalized.1.2 = []
  /\ continuation second.1 = Next None
  /\ isHit (reqAfter second.1) = true
  /\ status (resAfter second.1) = status handled
  /\ sent (resAfter second.1) = Some payload
  /\ outgoingHeaders (resAfter second.1)
     = filterResponseHeaders (outgoingHeaders handled).
Proof.
  intros Hk1 Hk2 Hi1 Hi2 Hm Hu Habs first Hhook Hvalid early finalized second.
  pose proof (miss_creates_placeholder cfg req1 res1 m K log Hk1 Hi1 Habs)
    as Hfirst.
  fold first in Hfirst.
  assert (early.1 = finish false req2 createResponse (Some ConflictError))
    as Hearly.
  { subst early. rewrite Hfirst.
    erewrite provide_found; [|done|done|simpl].
    2: { unfold InMemoryDataAdapter.findByIdempotencyKey.
         by rewrite lookup_insert_eq. }
    done. }
  assert (finalized
          = ((defaultSend payload handled, []),
             {| adapter :=
                  <[K := withResponse (pendingResource K req1)
                           (capture payload handled)]> m;
                calls := (log ++ [CallFind K;
                                  CallCreate (pendingResource K req1)])
                         ++ [CallUpdate
                               (withResponse (pendingResource K req1)
                                  (capture payload handled))] |}))
    as Hfin.
  { subst finalized. rewrite Hfirst in Hhook |- *. simpl in Hhook.
    unfold send. rewrite Hhook, Hvalid.
    unfold callUpdate. simpl. unfold InMemoryDataAdapter.update. simpl.
    by rewrite insert_insert_eq. }
  assert (second.1
          = finish true req2
              (restore (status handled) (capture payload handled)
                 createResponse) None) as Hsecond.
  { subst second. rewrite Hfin.
    erewrite provide_found; [|done|done|simpl].
    2: { unfold InMemoryDataAdapter.findByIdempotencyKey.
         by rewrite lookup_insert_eq. }
    simpl. unfold requestsMatch. simpl.
    by rewrite !bool_decide_eq_true_2. }
  rewrite Hearly, Hsecond, Hfin, Hfirst. simpl. repeat split.
  rewrite filterResponseHeaders_idemp. apply map_eq. intros name.
  rewrite lookup_union_l; [done|apply lookup_empty].
Qed.

(** X11: [reportError] releases the placeholder: the key is free again and the
    next request with it is a fresh miss. *)
Lemma reportError_frees_the_key cfg req retry res m K log :
  extractIdempotencyKeyFromReq cfg req = Some K ->
  shouldProcess cfg req = true ->
  extractIdempotencyKeyFromReq cfg retry = Some K ->
  shouldProcess cfg retry = true ->
  m !! K = None ->
  let first :=
    provideMiddlewareFunction cfg req res {| adapter := m; calls := log |} in
  let reported := reportError cfg req first.2 in
  let second := provideMiddlewareFunction cfg retry res reported.2 in
  reported.1 = None
  /\ adapter reported.2 !! K = None
  /\ continuation second.1 = Next None
  /\ isHit (reqAfter second.1) = false.
Proof.
  intros Hk Hi Hk2 Hi2 Hm first reported second.
  subst second reported first.
  rewrite (miss_creates_placeholder _ _ _ _ _ _ Hk Hi Hm).
  unfold reportError. rewrite Hk. unfold callDelete. simpl.
  split; [done|]. split; [apply lookup_delete_eq|].
  by rewrite (miss_creates_placeholder _ _ _ _ _ _ Hk2 Hi2)
    by apply lookup_delete_eq.
Qed.

End InMemoryCoordinatorFacts.

(** * The theorems at the scenarios of the test-suite *)

(** A second [create] under the key of a stored resource leaves the store
    alone; on a fresh adapter it stores the resource. *)
Lemma create_fails_exactly_on_existing_key_witness :
  (InMemoryDataAdapter.create createdResource
     (adapter (worldWith corruptedResource))).2
  = adapter (worldWith corruptedResource)
  /\ (InMemoryDataAdapter.findByIdempotencyKey sampleKey
        (InMemoryDataAdapter.create createdResource
           InMemoryDataAdapter.init).2).1
     = Resolved (Some createdResource).
Proof.
  split.
  - destruct (create_fails_exactly_on_existing_key
                (adapter (worldWith corruptedResource)) createdResource)
      as (_ & Hkept & _).
    apply (Hkept corruptedResource). vm_compute. reflexivity.
  - destruct (create_fails_exactly_on_existing_key
                InMemoryDataAdapter.init createdResource)
      as (_ & _ & Hfree).
    apply Hfree. vm_compute. reflexivity.
Defined.

(** The created resource is read back; a key that was never written is
    absent after other calls. *)
Lemma find_returns_what_was_created_witness :
  (InMemoryDataAdapter.findByIdempotencyKey sampleKey
     (InMemoryDataAdapter.create createdResource InMemoryDataAdapter.init).2).1
  = Resolved (Some createdResource)
  /\ (InMemoryDataAdapter.findByIdempotencyKey "other"
        (mem_run [CallCreate createdResource; CallDelete sampleKey;
                  CallFind "other"] InMemoryDataAdapter.init)).1
     = Resolved None.
Proof.
  destruct (find_returns_what_was_created InMemoryDataAdapter.init
              createdResource "other"
              [CallCreate createdResource; CallDelete sampleKey;
               CallFind "other"]) as (Hcreated & _ & Hnever).
  split.
  - apply Hcreated. vm_compute. reflexivity.
  - apply Hnever. repeat constructor; vm_compute; discriminate.
Defined.

(** Deleting one key keeps the resource of another. *)
Lemma other_keys_are_untouched_witness :
  (InMemoryDataAdapter.findByIdempotencyKey "other"
     (InMemoryDataAdapter.delete sampleKey
        (<["other" := corruptedResource]>
           (adapter (worldWith createdResource)))).2).1
  = Resolved (Some corruptedResource).
Proof.
  destruct (other_keys_are_untouched
              (<["other" := corruptedResource]>
                 (adapter (worldWith createdResource)))
              createdResource sampleKey "other") as (_ & _ & Hdel).
  - vm_compute. discriminate.
  - reflexivity.
  - rewrite Hdel. vm_compute. reflexivity.
Defined.

(** An update replaces whatever was updated before under the key. *)
Lemma update_is_an_upsert_witness :
  (InMemoryDataAdapter.update createdResource
     (InMemoryDataAdapter.update corruptedResource
        InMemoryDataAdapter.init).2).2
  = (InMemoryDataAdapter.update createdResource InMemoryDataAdapter.init).2.
Proof.
  destruct (update_is_an_upsert InMemoryDataAdapter.init createdResource)
    as (_ & _ & _ & Hwhole).
  apply Hwhole. reflexivity.
Defined.

(** Section 8: replaying [POST https://something] on the key of a resource
    completed with [201] returns [201], the content type and the body. *)
Lemma completed_resource_is_replayed_witness :
  let out :=
    provideMiddlewareFunction defaultOptions postSomething createResponse
      (worldWith createdResource) in
  continuation out.1 = Next None
  /\ isHit (reqAfter out.1) = true
  /\ status (resAfter out.1) = 201%Z
  /\ sent (resAfter out.1) = Some "{id:1}"
  /\ outgoingHeaders (resAfter out.1)
     = {[ "content-type" := HSingle "application/json" ]}.
Proof.
  pose proof (completed_resource_is_replayed defaultOptions postSomething
                createResponse (worldWith createdResource) sampleKey
                createdResource
                {| statusCode := Some 201%Z;
                   responseHeaders :=
                     {[ "content-type" := HSingle "application/json" ]};
                   responseBody := "{id:1}" |}
                201%Z (adapter (worldWith createdResource))
                ltac:(vm_compute; reflexivity) ltac:(reflexivity)
                ltac:(vm_compute; reflexivity) ltac:(reflexivity)
                ltac:(reflexivity) ltac:(reflexivity) ltac:(reflexivity))
    as (Hnext & _ & Hhit & Hstatus & Hbody & _ & _ & Hheaders & _).
  specialize (Hheaders eq_refl). intros out.
  refine (conj Hnext (conj Hhit (conj Hstatus (conj Hbody _)))).
  subst out. rewrite Hheaders. vm_compute. reflexivity.
Defined.



(** ['indicates misuse of the idempotency key'] *)
Lemma reused_key_is_a_misuse_witness :
  let out :=
    provideMiddlewareFunction defaultOptions postSomethingElse createResponse
      (worldWith createdResource) in
  continuation out.1 = Next (Some MisuseError)
  /\ isHit (reqAfter out.1) = false
  /\ resAfter out.1 = createResponse.
Proof.
  pose proof (reused_key_is_a_misuse defaultOptions postSomethingElse
                createResponse (worldWith createdResource) sampleKey
                createdResource
                {| statusCode := Some 201%Z;
                   responseHeaders :=
                     {[ "content-type" := HSingle "application/json" ]};
                   responseBody := "{id:1}" |}
                201%Z (adapter (worldWith createdResource))
                ltac:(vm_compute; reflexivity) ltac:(reflexivity)
                ltac:(vm_compute; reflexivity) ltac:(reflexivity)
                ltac:(reflexivity)
                ltac:(right; vm_compute; discriminate))
    as (Hnext & _ & _ & Hhit & Hres & _).
  intros out. repeat split; assumption.
Defined.

(** ['pass through the request without alteration if no idempotency key'] *)
Lemma keyless_request_passes_through_witness :
  let out :=
    provideMiddlewareFunction defaultOptions keylessRequest createResponse
      freshWorld in
  continuation out.1 = Next None
  /\ isHit (reqAfter out.1) = false
  /\ out.2 = freshWorld.
Proof.
  pose proof (keyless_request_passes_through defaultOptions keylessRequest
                createResponse freshWorld ltac:(vm_compute; reflexivity))
    as (Hnext & _ & Hhit & _ & _ & Hworld).
  intros out. repeat split; assumption.
Defined.

(** ['filters sensitive headers case-insensitively'] *)
Lemma stored_snapshot_is_redacted_witness :
  exists stored,
    calls (provideMiddlewareFunction defaultOptions mixedCaseRequest
             createResponse freshWorld).2
    = [CallFind sampleKey; CallCreate stored]
    /\ headers (request stored) !! "Authorization" = None
    /\ headers (request stored) !! "COOKIE" = None
    /\ headers (request stored) !! "X-API-KEY" = None
    /\ headers (request stored) !! "Content-Type"
       = Some (HSingle "application/json").
Proof.
  pose proof (stored_snapshot_is_redacted defaultOptions mixedCaseRequest
                createResponse freshWorld sampleKey
                InMemoryDataAdapter.init
                ltac:(vm_compute; reflexivity) ltac:(reflexivity)
                ltac:(vm_compute; reflexivity))
    as (stored & Hcalls & _ & _ & _ & Hgone & Hkept & _).
  exists stored. split; [exact Hcalls|].
  repeat split.
  - apply Hgone. left. vm_compute. tauto.
  - apply Hgone. left. vm_compute. tauto.
  - apply Hgone. left. vm_compute. tauto.
  - rewrite Hkept; [vm_compute; reflexivity|].
    intros [Hin|(p & Hp & Hpre)].
    + vm_compute in Hin. decompose [or] Hin; discriminate || contradiction.
    + vm_compute in Hp. decompose [or] Hp; try contradiction; subst p;
        vm_compute in Hpre; discriminate.
Defined.

(** * Further properties of the in-memory data adapter *)

Section InMemoryDataAdapterLaws.

Import InMemoryDataAdapter.

Implicit Types (m : gmap string IdempotencyResource).
Implicit Types (r : IdempotencyResource) (K : string) (c : AdapterCall).

(** Where a resource found after one call comes from: it was there before,
    or the call is the [create] or [update] that handed it in. *)
Lemma mem_step_lookup_Some c m K r :
  mem_step m c !! K = Some r ->
  m !! K = Some r
  \/ (idempotencyKey r = K /\ (c = CallCreate r \/ c = CallUpdate r)).
Proof.
  destruct c as [k|r'|r'|k]; simpl.
  - by left.
  - unfold create. case_bool_decide; simpl; [by left|].
    destruct (decide (idempotencyKey r' = K)) as [<-|Hne].
    + rewrite lookup_insert_eq. intros [= ->]. right. by split; [|left].
    + rewrite lookup_insert_ne by done. by left.
  - destruct (decide (idempotencyKey r' = K)) as [<-|Hne].
    + rewrite lookup_insert_eq. intros [= ->]. right. by split; [|right].
    + rewrite lookup_insert_ne by done. by left.
  - destruct (decide (k = K)) as [->|Hne].
    + by rewrite lookup_delete_eq.
    + rewrite lookup_delete_ne by done. by left.
Qed.

Lemma mem_step_well_keyed c m : well_keyed m -> well_keyed (mem_step m c).
Proof.
  unfold well_keyed. intros Hm K r Hr.
  destruct (mem_step_lookup_Some _ _ _ _ Hr) as [Hold|[Hk _]]; [|done].
  by apply (Hm K r).
Qed.

(** One call that is not a [delete] of [K] keeps [K] in the store. *)
Lemma mem_step_keeps c m K :
  c ≠ CallDelete K -> is_Some (m !! K) -> is_Some (mem_step m c !! K).
Proof.
  intros Hc Hm. destruct c as [k|r|r|k]; simpl; try done.
  - unfold create. case_bool_decide; simpl; [done|].
    destruct (decide (idempotencyKey r = K)) as [<-|Hne].
    + rewrite lookup_insert_eq. by eexists.
    + by rewrite lookup_insert_ne.
  - destruct (decide (idempotencyKey r = K)) as [<-|Hne].
    + rewrite lookup_insert_eq. by eexists.
    + by rewrite lookup_insert_ne.
  - rewrite lookup_delete_ne; [done|]. congruence.
Qed.

(** One call that neither deletes nor updates [K] keeps the resource of
    [K]: a [create] does not overwrite. *)
Lemma mem_step_keeps_resource c m K r :
  c ≠ CallDelete K ->
  (forall r', c = CallUpdate r' -> idempotencyKey r' ≠ K) ->
  m !! K = Some r -> mem_step m c !! K = Some r.
Proof.
  intros Hd Hu Hm. destruct c as [k|r'|r'|k]; simpl; try done.
  - unfold create. case_bool_decide as Hhas; simpl; [done|].
    rewrite lookup_insert_ne; [done|]. intros <-. apply Hhas. by eexists.
  - rewrite lookup_insert_ne; [done|]. by apply Hu.
  - rewrite lookup_delete_ne; [done|]. congruence.
Qed.

(** X1: a store in which every resource sits under its own key stays so
    through any sequence of calls. *)
Theorem store_stays_well_keyed cs m :
  well_keyed m -> well_keyed (mem_run cs m).
Proof.
  unfold mem_run. revert m.
  induction cs as [|c cs IH]; intros m Hm; simpl; [done|].
  apply IH. by apply mem_step_well_keyed.
Qed.

(** X2: whatever a fresh adapter holds after a sequence of calls was
    handed in by a [create] or an [update] of that sequence, under the
    resource's own key: the adapter makes up no resource. *)
Theorem stored_resources_were_written cs K r :
  mem_run cs init !! K = Some r ->
  idempotencyKey r = K /\ (In (CallCreate r) cs \/ In (CallUpdate r) cs).
Proof.
  assert (forall m,
    mem_run cs m !! K = Some r ->
    m !! K = Some r
    \/ (idempotencyKey r = K
        /\ (In (CallCreate r) cs \/ In (CallUpdate r) cs))) as Hgen.
  { unfold mem_run. induction cs as [|c cs IH]; intros m Hr; simpl in *.
    - by left.
    - destruct (IH _ Hr) as [Hstep|(Hk & [Hin|Hin])].
      + destruct (mem_step_lookup_Some _ _ _ _ Hstep) as [Hold|(Hk & [-> | ->])].
        * by left.
        * right. split; [done|]. left. by left.
        * right. split; [done|]. right. by left.
      + right. split; [done|]. left. by right.
      + right. split; [done|]. right. by right. }
  intros Hr. destruct (Hgen _ Hr) as [Hinit|Hw]; [|done].
  unfold init in Hinit. by rewrite lookup_empty in Hinit.
Qed.

(** X3: of two [create] calls for the same free key the first resolves and
    the second is rejected with ['Duplicate']; the store keeps the first
    resource. *)
Theorem first_create_wins m r1 r2 :
  idempotencyKey r1 = idempotencyKey r2 ->
  m !! idempotencyKey r1 = None ->
  (create r1 m).1 = Resolved tt
  /\ (create r2 (create r1 m).2).1 = Rejected (AdapterError "Duplicate")
  /\ (findByIdempotencyKey (idempotencyKey r2)
        (create r2 (create r1 m).2).2).1 = Resolved (Some r1).
Proof.
  intros Hk Hfree. rewrite (create_absent _ _ Hfree). simpl.
  assert (is_Some (<[idempotencyKey r1 := r1]> m !! idempotencyKey r2)) as Hhas.
  { rewrite <- Hk, lookup_insert_eq. by eexists. }
  rewrite (create_present _ _ Hhas). simpl.
  repeat split. by rewrite <- Hk, lookup_insert_eq.
Qed.

(** X4: a [create] on a free key followed by the [delete] of that key
    gives back the store as it was. *)
Theorem create_then_delete_restores m r :
  m !! idempotencyKey r = None ->
  (delete (idempotencyKey r) (create r m).2).2 = m.
Proof.
  intros Hfree. rewrite (create_absent _ _ Hfree). simpl.
  by apply delete_insert_id.
Qed.

(** X5: after [delete K] a [create] for [K] always resolves, whatever the
    store held, and the new resource is what is found. *)
Theorem deleted_key_can_be_created_again m r :
  (create r (delete (idempotencyKey r) m).2).1 = Resolved tt
  /\ (findByIdempotencyKey (idempotencyKey r)
        (create r (delete (idempotencyKey r) m).2).2).1 = Resolved (Some r).
Proof.
  assert ((delete (idempotencyKey r) m).2 !! idempotencyKey r = None) as Hfree.
  { apply lookup_delete_eq. }
  rewrite (create_absent _ _ Hfree). simpl.
  split; [done|]. by rewrite lookup_insert_eq.
Qed.

(** X6: [update] claims the key like [create] does: a [create] for the key
    of an updated resource is rejected and the updated resource stays; and
    an [update] after a [create] for the same key, resolved or rejected,
    gives the store the [update] alone gives. *)
Theorem update_and_create_on_one_key m r r' :
  idempotencyKey r' = idempotencyKey r ->
  (create r' (update r m).2).1 = Rejected (AdapterError "Duplicate")
  /\ (create r' (update r m).2).2 = (update r m).2
  /\ (update r (create r' m).2).2 = (update r m).2.
Proof.
  intros Hk.
  assert (is_Some ((update r m).2 !! idempotencyKey r')) as Hhas.
  { simpl. rewrite Hk, lookup_insert_eq. by eexists. }
  rewrite (create_present _ _ Hhas). repeat split.
  unfold create. case_bool_decide; simpl; [done|].
  rewrite Hk. apply insert_insert_eq.
Qed.

(** Settles a [create] whose key is known to be present or free, looking
    through writes to other keys. *)
Ltac settle_create :=
  repeat
    (match goal with
     | |- context [create ?r ?s] =>
         first
           [ rewrite (create_present r s)
               by (rewrite ?lookup_insert_ne, ?lookup_delete_ne by done;
                   match goal with
                   | E : ?x = Some _ |- is_Some ?x => rewrite E; by eexists
                   end)
           | rewrite (create_absent r s)
               by (rewrite ?lookup_insert_ne, ?lookup_delete_ne by done;
                   done) ]
     end; simpl).

(** X7: two calls about different keys can be made in either order: the
    store afterwards is the same. *)
Theorem calls_on_distinct_keys_commute m c1 c2 :
  call_key c1 ≠ call_key c2 ->
  mem_step (mem_step m c1) c2 = mem_step (mem_step m c2) c1.
Proof.
  intros Hne.
  destruct c1 as [k1|r1|r1|k1], c2 as [k2|r2|r2|k2]; simpl in *; try done.
  - destruct (m !! idempotencyKey r1) eqn:E1,
             (m !! idempotencyKey r2) eqn:E2; settle_create; try done.
    by apply insert_insert_ne.
  - destruct (m !! idempotencyKey r1) eqn:E1; settle_create; [done|].
    by apply insert_insert_ne.
  - destruct (m !! idempotencyKey r1) eqn:E1; settle_create; [done|].
    by rewrite delete_insert_ne.
  - destruct (m !! idempotencyKey r2) eqn:E2; settle_create; [done|].
    by apply insert_insert_ne.
  - by apply insert_insert_ne.
  - by rewrite delete_insert_ne.
  - destruct (m !! idempotencyKey r2) eqn:E2; settle_create; [done|].
    by rewrite delete_insert_ne.
  - by rewrite delete_insert_ne.
  - apply delete_delete.
Qed.

(** X8: resources never expire: through any sequence of calls without a
    [delete] of [K] a key that is present stays present, and when the
    sequence has no [update] for [K] either, the resource is the very same:
    a [create] never overwrites. *)
Theorem resources_never_expire cs m K r :
  Forall (fun c => c ≠ CallDelete K) cs ->
  m !! K = Some r ->
  is_Some (mem_run cs m !! K)
  /\ (Forall (fun c => forall r', c = CallUpdate r' -> idempotencyKey r' ≠ K) cs ->
      mem_run cs m !! K = Some r).
Proof.
  unfold mem_run. intros Hcs. revert m r.
  induction Hcs as [|c cs Hc _ IH]; intros m r Hm; simpl.
  - split; [by eexists|done].
  - destruct (mem_step_keeps c m K Hc) as [r1 Hr1]; [by eexists|].
    split; [by apply (IH _ r1)|].
    intros Hu. inversion Hu as [|? ? Hu1 Hu2]; subst.
    apply (IH _ r); [|done].
    by apply mem_step_keeps_resource.
Qed.

(** X9: the store grows by one resource on a [create] for a free key and
    by none on a rejected [create] or an [update] of a present key; it
    shrinks by one on the [delete] of a present key and not at all on the
    [delete] of an absent one. *)
Theorem store_size_accounting m r K :
  (m !! idempotencyKey r = None ->
     size (create r m).2 = Datatypes.S (size m)
     /\ size (update r m).2 = Datatypes.S (size m))
  /\ (is_Some (m !! idempotencyKey r) ->
        size (create r m).2 = size m /\ size (update r m).2 = size m)
  /\ (is_Some (m !! K) -> Datatypes.S (size (delete K m).2) = size m)
  /\ (m !! K = None -> size (delete K m).2 = size m).
Proof.
  split; [|split; [|split]].
  - intros Hfree. rewrite (create_absent _ _ Hfree). simpl.
    split; by apply map_size_insert_None.
  - intros Hhas. rewrite (create_present _ _ Hhas). simpl.
    split; [done|]. by apply map_size_insert_Some.
  - intros Hhas. simpl. rewrite map_size_delete_Some by done.
    destruct Hhas as [x Hx].
    assert (size m ≠ 0) as Hpos.
    { intros Hz. apply map_size_empty_iff in Hz. subst m.
      by rewrite lookup_empty in Hx. }
    lia.
  - intros Hfree. simpl. by apply map_size_delete_None.
Qed.

End InMemoryDataAdapterLaws.

(** * The scenarios of the test-suite, for every adapter *)

Section CoordinatorScenarios.

Context {S : Type} `{!IIdempotencyDataAdapter.t S}.

Implicit Types (cfg : IdempotencyOptions) (req : Request) (res : Response).
Implicit Types (w : World S) (K : string) (r : IdempotencyResource).

(** X13: ['verifies sendHook returns response for method chaining']:
    whatever the hook, the validator and the adapter do, [send] hands back
    the handle finalized as the original [send] finalizes it; without a
    hook it calls nothing and reports no error. *)
Theorem send_finalizes_as_the_original cfg payload res w :
  (send cfg payload res w).1.1 = defaultSend payload res
  /\ (sendHook res = None ->
        send cfg payload res w = ((defaultSend payload res, []), w)).
Proof.
  unfold send. split.
  - destruct (sendHook res) as [resource|]; [|done].
    destruct (isValidForPersistence cfg (capture payload res)).
    + destruct (callUpdate _ w) as [[[]|e] w1]; [done|].
      by destruct (release _ _ w1).
    + by destruct (release _ _ w).
  - by intros ->.
Qed.

(** X14: ['handles correctly error while persisting resource']: a failing
    [delete] is never swallowed. When the validator refuses the captured
    response and the release of the placeholder fails, [send] reports that
    failure, having called [delete] once and nothing else; and
    [reportError] on a request with a key returns the failure of its
    [delete]. *)
Theorem failing_delete_is_surfaced
    cfg payload req res w resource K e e' s1 s2 :
  sendHook res = Some resource ->
  isValidForPersistence cfg (capture payload res) = false ->
  IIdempotencyDataAdapter.delete (idempotencyKey resource) (adapter w)
  = (Rejected e, s1) ->
  extractIdempotencyKeyFromReq cfg req = Some K ->
  IIdempotencyDataAdapter.delete K (adapter w) = (Rejected e', s2) ->
  send cfg payload res w
  = ((defaultSend payload res, [e]),
     {| adapter := s1;
        calls := calls w ++ [CallDelete (idempotencyKey resource)] |})
  /\ reportError cfg req w
     = (Some e', {| adapter := s2; calls := calls w ++ [CallDelete K] |}).
Proof.
  intros Hhook Hno Hdel Hk Hdel2. split.
  - unfold send. rewrite Hhook, Hno. unfold release, callDelete.
    by rewrite Hdel.
  - unfold reportError. rewrite Hk. unfold callDelete. by rewrite Hdel2.
Qed.

(** The names the response-header tests expect to be dropped. *)
Lemma volatile_names_are_not_whitelisted name :
  In (toLowerCase name)
     [ "cache-control"; "expires"; "etag"; "last-modified"; "vary";
       "retry-after"; "set-cookie"; "authorization"; "server";
       "x-powered-by"; "x-custom-header" ] ->
  isWhitelistedResponseHeader name = false.
Proof.
  unfold isWhitelistedResponseHeader. cbv zeta. intros Hin.
  repeat (destruct Hin as [<-|Hin]; [reflexivity|]). destruct Hin.
Qed.

(** The names the response-header tests expect to be kept. *)
Lemma replayable_names_are_whitelisted name :
  In (toLowerCase name)
     [ "content-type"; "content-length"; "content-encoding";
       "access-control-allow-origin"; "access-control-allow-methods";
       "access-control-allow-headers"; "location" ] ->
  isWhitelistedResponseHeader name = true.
Proof.
  unfold isWhitelistedResponseHeader. cbv zeta. intros Hin.
  repeat (destruct Hin as [<-|Hin]; [reflexivity|]). destruct Hin.
Qed.

(** X16: the response-header tests: what the hook captures holds, in any
    letter case, none of [cache-control], [expires], [etag],
    [last-modified], [vary], [retry-after], [set-cookie], [authorization],
    [server], [x-powered-by], [x-custom-header], and holds the content,
    CORS and [location] headers of the handle with their values. *)
Theorem capture_keeps_the_tested_whitelist payload res name :
  (In (toLowerCase name)
      [ "cache-control"; "expires"; "etag"; "last-modified"; "vary";
        "retry-after"; "set-cookie"; "authorization"; "server";
        "x-powered-by"; "x-custom-header" ] ->
   responseHeaders (capture payload res) !! name = None)
  /\ (In (toLowerCase name)
         [ "content-type"; "content-length"; "content-encoding";
           "access-control-allow-origin"; "access-control-allow-methods";
           "access-control-allow-headers"; "location" ] ->
      responseHeaders (capture payload res) !! name
      = outgoingHeaders res !! name).
Proof.
  simpl. rewrite filterResponseHeaders_lookup. split; intros Hin.
  - by rewrite volatile_names_are_not_whitelisted.
  - by rewrite replayable_names_are_whitelisted.
Qed.

(** X17: the request-header tests: the snapshot holds, in any letter case,
    the [content-type], [content-length], [accept], [user-agent], [host]
    and [x-custom-header] headers of the request with their values. *)
Theorem snapshot_keeps_the_tested_safe_headers req name :
  In (toLowerCase name)
     [ "content-type"; "content-length"; "accept"; "user-agent"; "host";
       "x-custom-header" ] ->
  headers (snapshot req) !! name = headers (incoming req) !! name.
Proof.
  intros Hin. simpl. rewrite filterRequestHeaders_lookup.
  assert (isSensitiveHeader name = false) as ->; [|done].
  unfold isSensitiveHeader. cbv zeta.
  repeat (destruct Hin as [<-|Hin]; [reflexivity|]). destruct Hin.
Qed.

End CoordinatorScenarios.

(** * The scenarios of the test-suite on the in-memory adapter *)

Section InMemoryScenarios.

Implicit Types (cfg : IdempotencyOptions) (req : Request) (res : Response).
Implicit Types (m : gmap string IdempotencyResource) (K : string).

(** X12: ['ignores response if not valid for persistence']: when the
    validator refuses what the hook captured, the placeholder is deleted
    without an error, and the next request with the key is a fresh miss:
    not a hit, nothing replayed, the continuation goes on. *)
Theorem refused_response_is_not_cached
    cfg req retry res handled payload m K log :
  extractIdempotencyKeyFromReq cfg req = Some K ->
  shouldProcess cfg req = true ->
  extractIdempotencyKeyFromReq cfg retry = Some K ->
  shouldProcess cfg retry = true ->
  m !! K = None ->
  let first :=
    provideMiddlewareFunction cfg req res {| adapter := m; calls := log |} in
  sendHook handled = sendHook (resAfter first.1) ->
  isValidForPersistence cfg (capture payload handled) = false ->
  let finalized := send cfg payload handled first.2 in
  let second := provideMiddlewareFunction cfg retry createResponse finalized.2 in
  finalized.1.2 = []
  /\ adapter finalized.2 = m
  /\ continuation second.1 = Next None
  /\ isHit (reqAfter second.1) = false
  /\ sent (resAfter second.1) = None.
Proof.
  intros Hk Hi Hk2 Hi2 Hm first Hhook Hno finalized second.
  pose proof (miss_creates_placeholder cfg req res m K log Hk Hi Hm) as Hfirst.
  fold first in Hfirst.
  assert (finalized
          = ((defaultSend payload handled, []),
             {| adapter := m;
                calls := (log ++ [CallFind K;
                                  CallCreate (pendingResource K req)])
                         ++ [CallDelete K] |})) as Hfin.
  { subst finalized. rewrite Hfirst in Hhook |- *. simpl in Hhook.
    unfold send. rewrite Hhook, Hno. unfold release, callDelete. simpl.
    unfold InMemoryDataAdapter.delete.
    by rewrite delete_insert_id. }
  subst second. rewrite Hfin. simpl.
  by rewrite (miss_creates_placeholder _ _ _ _ _ _ Hk2 Hi2 Hm).
Qed.

End InMemoryScenarios.

(** * The further properties at the scenarios of the test-suite *)

(** A create, an update and a delete on a fresh adapter keep every
    resource under its own key. *)
Lemma store_stays_well_keyed_witness :
  well_keyed
    (mem_run [CallCreate createdResource; CallUpdate rivalResource;
              CallDelete "other"] InMemoryDataAdapter.init).
Proof.
  apply (store_stays_well_keyed
           [CallCreate createdResource; CallUpdate rivalResource;
            CallDelete "other"] InMemoryDataAdapter.init).
  apply map_Forall_empty.
Defined.

(** What is found after a create is the resource of that create. *)
Lemma stored_resources_were_written_witness :
  idempotencyKey createdResource = sampleKey
  /\ (In (CallCreate createdResource)
         [CallFind sampleKey; CallCreate createdResource]
      \/ In (CallUpdate createdResource)
            [CallFind sampleKey; CallCreate createdResource]).
Proof.
  apply (stored_resources_were_written
           [CallFind sampleKey; CallCreate createdResource]
           sampleKey createdResource).
  vm_compute. reflexivity.
Defined.

(** Two creates for [sampleKey]: the second is a duplicate. *)
Lemma first_create_wins_witness :
  (InMemoryDataAdapter.create rivalResource
     (InMemoryDataAdapter.create createdResource
        InMemoryDataAdapter.init).2).1
  = Rejected (AdapterError "Duplicate")
  /\ (InMemoryDataAdapter.findByIdempotencyKey sampleKey
        (InMemoryDataAdapter.create rivalResource
           (InMemoryDataAdapter.create createdResource
              InMemoryDataAdapter.init).2).2).1
     = Resolved (Some createdResource).
Proof.
  pose proof (first_create_wins InMemoryDataAdapter.init createdResource
                rivalResource ltac:(reflexivity)
                ltac:(vm_compute; reflexivity)) as (_ & Hsecond & Hkept).
  exact (conj Hsecond Hkept).
Defined.

(** Creating and deleting a resource leaves a store with another
    resource as it was. *)
Lemma create_then_delete_restores_witness :
  (InMemoryDataAdapter.delete sampleKey
     (InMemoryDataAdapter.create createdResource
        {[ "other" := corruptedResource ]}).2).2
  = {[ "other" := corruptedResource ]}.
Proof.
  apply (create_then_delete_restores
           {[ "other" := corruptedResource ]} createdResource).
  vm_compute. reflexivity.
Defined.

(** An update of [sampleKey] makes a later create a duplicate. *)
Lemma update_and_create_on_one_key_witness :
  (InMemoryDataAdapter.create rivalResource
     (InMemoryDataAdapter.update createdResource
        InMemoryDataAdapter.init).2).1
  = Rejected (AdapterError "Duplicate").
Proof.
  pose proof (update_and_create_on_one_key InMemoryDataAdapter.init
                createdResource rivalResource ltac:(reflexivity))
    as (Hdup & _).
  exact Hdup.
Defined.

(** A create for [sampleKey] and a delete of another key commute. *)
Lemma calls_on_distinct_keys_commute_witness :
  mem_step (mem_step {[ "other" := corruptedResource ]}
              (CallCreate createdResource)) (CallDelete "other")
  = mem_step (mem_step {[ "other" := corruptedResource ]}
                (CallDelete "other")) (CallCreate createdResource).
Proof.
  apply (calls_on_distinct_keys_commute
           {[ "other" := corruptedResource ]}
           (CallCreate createdResource) (CallDelete "other")).
  vm_compute. discriminate.
Defined.

(** A rival create and a delete of another key leave the completed
    resource of [sampleKey] where it is. *)
Lemma resources_never_expire_witness :
  mem_run [CallCreate rivalResource; CallDelete "other"; CallFind sampleKey]
    (adapter (worldWith createdResource)) !! sampleKey
  = Some createdResource.
Proof.
  pose proof (resources_never_expire
                [CallCreate rivalResource; CallDelete "other";
                 CallFind sampleKey]
                (adapter (worldWith createdResource)) sampleKey
                createdResource) as Hstay.
  destruct Hstay as (_ & Hsame).
  - repeat constructor; vm_compute; discriminate.
  - vm_compute. reflexivity.
  - apply Hsame. repeat constructor; discriminate.
Defined.

(** The first create grows a fresh store to one resource; deleting it
    again shrinks the store by one. *)
Lemma store_size_accounting_witness :
  size (InMemoryDataAdapter.create createdResource
          InMemoryDataAdapter.init).2 = 1
  /\ Datatypes.S
       (size (InMemoryDataAdapter.delete sampleKey
                (adapter (worldWith createdResource))).2)
     = size (adapter (worldWith createdResource)).
Proof.
  split.
  - destruct (store_size_accounting InMemoryDataAdapter.init
                createdResource sampleKey) as (Hgrow & _).
    destruct Hgrow as (Hcreate & _); [vm_compute; reflexivity|].
    rewrite Hcreate. vm_compute. reflexivity.
  - destruct (store_size_accounting (adapter (worldWith createdResource))
                createdResource sampleKey) as (_ & _ & Hshrink & _).
    apply Hshrink. vm_compute. by eexists.
Defined.

(** ['returns same response for same idempotency key']: the clone of the
    first request meets a conflict before the handler finalized and is a
    hit afterwards, with [201], the content type but not the cache
    directive, and the body. *)
Lemma replay_after_capture_witness :
  let first :=
    provideMiddlewareFunction defaultOptions postSomething createResponse
      freshWorld in
  let early :=
    provideMiddlewareFunction defaultOptions
      (createCloneRequest postSomething) createResponse first.2 in
  let finalized := send defaultOptions "{id:1}" handledResponse first.2 in
  let second :=
    provideMiddlewareFunction defaultOptions
      (createCloneRequest postSomething) createResponse finalized.2 in
  continuation early.1 = Next (Some ConflictError)
  /\ isHit (reqAfter second.1) = true
  /\ status (resAfter second.1) = 201%Z
  /\ sent (resAfter second.1) = Some "{id:1}"
  /\ outgoingHeaders (resAfter second.1)
     = {[ "Content-Type" := HSingle "application/json" ]}.
Proof.
  pose proof (replay_after_capture defaultOptions postSomething
                (createCloneRequest postSomething) createResponse
                handledResponse "{id:1}" InMemoryDataAdapter.init sampleKey []
                ltac:(vm_compute; reflexivity) ltac:(vm_compute; reflexivity)
                ltac:(reflexivity) ltac:(reflexivity)
                ltac:(reflexivity) ltac:(reflexivity)
                ltac:(vm_compute; reflexivity)
                ltac:(vm_compute; reflexivity)
                ltac:(vm_compute; reflexivity))
    as (_ & Hearly & _ & _ & Hhit & Hstatus & Hbody & Hheaders).
  intros first early finalized second.
  refine (conj Hearly (conj Hhit (conj Hstatus (conj Hbody _)))).
  subst second finalized first. unfold freshWorld.
  rewrite Hheaders. vm_compute. reflexivity.
Defined.

(** ['removes resource if error reported'] *)
Lemma reportError_frees_the_key_witness :
  let first :=
    provideMiddlewareFunction defaultOptions postSomething createResponse
      freshWorld in
  let reported := reportError defaultOptions postSomething first.2 in
  let second :=
    provideMiddlewareFunction defaultOptions postSomething createResponse
      reported.2 in
  adapter reported.2 !! sampleKey = None
  /\ continuation second.1 = Next None
  /\ isHit (reqAfter second.1) = false.
Proof.
  pose proof (reportError_frees_the_key defaultOptions postSomething
                postSomething createResponse InMemoryDataAdapter.init
                sampleKey []
                ltac:(vm_compute; reflexivity) ltac:(reflexivity)
                ltac:(vm_compute; reflexivity) ltac:(reflexivity)
                ltac:(vm_compute; reflexivity))
    as (_ & Hfree & Hnext & Hhit).
  exact (conj Hfree (conj Hnext Hhit)).
Defined.

(** ['ignores response if not valid for persistence'] *)
Lemma refused_response_is_not_cached_witness :
  let first :=
    provideMiddlewareFunction refusingOptions postSomething createResponse
      freshWorld in
  let finalized := send refusingOptions "something" handledResponse first.2 in
  let second :=
    provideMiddlewareFunction refusingOptions postSomething createResponse
      finalized.2 in
  adapter finalized.2 = InMemoryDataAdapter.init
  /\ continuation second.1 = Next None
  /\ isHit (reqAfter second.1) = false.
Proof.
  pose proof (refused_response_is_not_cached refusingOptions postSomething
                postSomething createResponse handledResponse "something"
                InMemoryDataAdapter.init sampleKey []
                ltac:(vm_compute; reflexivity) ltac:(reflexivity)
                ltac:(vm_compute; reflexivity) ltac:(reflexivity)
                ltac:(vm_compute; reflexivity)
                ltac:(vm_compute; reflexivity) ltac:(reflexivity))
    as (_ & Hgone & Hnext & Hhit & _).
  exact (conj Hgone (conj Hnext Hhit)).
Defined.

(** ['verifies sendHook returns response for method chaining'] *)
Lemma send_finalizes_as_the_original_witness :
  (send defaultOptions "test data" handledResponse freshWorld).1.1
  = defaultSend "test data" handledResponse
  /\ send defaultOptions "test data" createResponse freshWorld
     = ((defaultSend "test data" createResponse, []), freshWorld).
Proof.
  split.
  - apply (send_finalizes_as_the_original defaultOptions "test data"
             handledResponse freshWorld).
  - apply (send_finalizes_as_the_original defaultOptions "test data"
             createResponse freshWorld).
    reflexivity.
Defined.

(** ['handles correctly error while persisting resource'] *)
Lemma failing_delete_is_surfaced_witness :
  (@send _ deleteThrows refusingOptions "something" handledResponse
     freshWorld).1.2 = [AdapterError "Doh!"]
  /\ (@reportError _ deleteThrows refusingOptions postSomething
        freshWorld).1 = Some (AdapterError "Doh!").
Proof.
  pose proof (@failing_delete_is_surfaced _ deleteThrows refusingOptions
                "something" postSomething handledResponse freshWorld
                (pendingResource sampleKey postSomething) sampleKey
                (AdapterError "Doh!") (AdapterError "Doh!")
                InMemoryDataAdapter.init InMemoryDataAdapter.init
                ltac:(reflexivity) ltac:(reflexivity) ltac:(reflexivity)
                ltac:(vm_compute; reflexivity) ltac:(reflexivity))
    as (Hsend & Hreport).
  split.
  - rewrite Hsend. reflexivity.
  - rewrite Hreport. reflexivity.
Defined.

(** ['handles data adapter findByIdempotencyKey error'] *)
Lemma failed_lookup_propagates_witness :
  continuation
    (@provideMiddlewareFunction _ findRejects defaultOptions postSomething
       createResponse freshWorld).1 = NotInvoked
  /\ rejection
       (@provideMiddlewareFunction _ findRejects defaultOptions postSomething
          createResponse freshWorld).1
     = Some (AdapterError "Database error").
Proof.
  apply (@failed_lookup_propagates _ findRejects defaultOptions postSomething
           createResponse freshWorld sampleKey
           (AdapterError "Database error") InMemoryDataAdapter.init).
  - vm_compute. reflexivity.
  - reflexivity.
  - reflexivity.
Defined.

(** ['handles response header whitelist case-insensitively'] *)
Lemma capture_keeps_the_tested_whitelist_witness :
  responseHeaders (capture "{id:1}" handledResponse) !! "Cache-Control" = None
  /\ responseHeaders (capture "{id:1}" handledResponse) !! "Content-Type"
     = Some (HSingle "application/json").
Proof.
  split.
  - apply (capture_keeps_the_tested_whitelist "{id:1}" handledResponse
             "Cache-Control").
    vm_compute. tauto.
  - destruct (capture_keeps_the_tested_whitelist "{id:1}" handledResponse
                "Content-Type") as (_ & Hkept).
    rewrite Hkept; [vm_compute; reflexivity|]. vm_compute. tauto.
Defined.

(** ['filters sensitive headers case-insensitively']: the content type
    stays. *)
Lemma snapshot_keeps_the_tested_safe_headers_witness :
  headers (snapshot mixedCaseRequest) !! "Content-Type"
  = Some (HSingle "application/json").
Proof.
  rewrite (snapshot_keeps_the_tested_safe_headers mixedCaseRequest
             "Content-Type").
  - vm_compute. reflexivity.
  - vm_compute. tauto.
Defined.
